(** * A shallow embedding of [system_monitor.py] (System_Monitoring)

    The Python module wraps psutil: each [get_*] method of [SystemMonitor]
    calls psutil and reshapes the answer into a dict; [monitor] builds one
    dict from all of them; [log_monitoring_data] appends its JSON to a file;
    [main] loops collect / log / print / [time.sleep(5)] until Ctrl+C.

    Modelling choices:
    - a Python exception is a value of [exn]; a call that may raise returns
      [result A] ([Ok a] or [Err e]); psutil's answers are inputs of the
      model, gathered in the record [platform];
    - integers (byte and packet counters, pids) are [Z]; Python floats that
      are only copied or compared (percentages, times) are [Q];
    - [round(b / (1024**3), 2)] is a decimal with two digits, represented by
      its number of hundredths ([Z]): the float [b / 1024**3] is the
      quotient rounded to a double, and CPython's [round] rounds the exact
      value of that double half-to-even ([gb2]);
    - a dict keyed by strings is a [gmap string _]; the snapshot dict built
      by [monitor], whose key order matters, is an association list. *)

From Stdlib Require Import ZArith QArith Lia Sorting.Sorted.
From stdpp Require Import base gmap strings list.

Open Scope Z_scope.

(** ** Exceptions and the result monad *)

Inductive exn :=
| PermissionError
| NoSuchProcess
| AccessDenied
| OSError
| TypeError
| OtherError.

Inductive result (A : Type) :=
| Ok (a : A)
| Err (e : exn).
Arguments Ok {A} a.
Arguments Err {A} e.

Global Instance result_ret : MRet result := fun A a => Ok a.
Global Instance result_bind : MBind result := fun A B f r =>
  match r with
  | Ok a => f a
  | Err e => Err e
  end.

(** ** psutil's answers *)

Record vmem := {
  vm_total : Z; vm_used : Z; vm_available : Z; vm_percent : Q }.

Record swapmem := { sw_total : Z; sw_used : Z }.

Record partition := { device : string; mountpoint : string }.

Record usage := {
  u_total : Z; u_used : Z; u_free : Z; u_percent : Q }.

Record netio := {
  bytes_sent : Z; bytes_recv : Z; packets_sent : Z; packets_recv : Z }.

(** [proc.info] for [attrs = ['pid', 'name', 'cpu_percent', 'memory_percent']].
    When reading an attribute raises [AccessDenied] (or [ZombieProcess]),
    [process_iter] stores its [ad_value], [None], instead: the metrics are
    [option Q]. The name is only carried along. *)
Record procinfo := {
  pid : Z; name : string; cpu_percent : option Q; memory_percent : option Q }.

(** Every psutil / socket / platform call the module makes, with what it
    returns or raises. [clock] is [datetime.now().timestamp()]. *)
Record platform := {
  p_hostname : result string;
  p_system : result string;
  p_boot_time : result Q;
  p_clock : Q;
  p_cpu_percent : result Q;
  p_cpu_count_physical : result (option Z);
  p_cpu_count_logical : result (option Z);
  p_cpu_percent_percpu : result (list Q);
  p_virtual_memory : result vmem;
  p_swap_memory : result swapmem;
  p_disk_partitions : result (list partition);
  p_disk_usage : string -> result usage;
  p_net_io_counters : result netio;
  p_process_iter : result (list (result procinfo)) }.

(** ** [round(b / (1024**3), 2)], in hundredths *)

(** Round [n / d] ([d > 0]) to the nearest integer, ties to even. *)
Definition round_half_even (n d : Z) : Z :=
  let q := n / d in
  let r := n mod d in
  match Z.compare (2 * r) d with
  | Lt => q
  | Gt => q + 1
  | Eq => if Z.even q then q else q + 1
  end.

(** [int / int] in CPython is the exact quotient rounded to the nearest
    double. The divisor [1024**3 = 2^30] is a power of two, so [b / 1024**3]
    is [to_double b / 2^30], where [to_double b] is [b] rounded to 53
    significant bits, ties to even. (psutil's byte counts are unsigned
    64-bit fields, far from the float range limit.) *)
Definition float_shift (b : Z) : Z := Z.max 0 (Z.log2 b - 52).

Definition to_double_nonneg (b : Z) : Z :=
  let e := float_shift b in round_half_even b (2 ^ e) * 2 ^ e.

Definition to_double (b : Z) : Z :=
  if b <? 0 then - to_double_nonneg (- b) else to_double_nonneg b.

(** [round(b / (1024**3), 2)] in hundredths: the exact value of the double
    [to_double b / 2^30], times 100, rounded half-to-even. *)
Definition gb2 (b : Z) : Z := round_half_even (to_double b * 100) (1024 ^ 3).

(** ** [get_memory_info] *)

Record meminfo := {
  total_memory_gb : Z;
  used_memory_gb : Z;
  available_memory_gb : Z;
  memory_percent_m : Q;
  swap_total_gb : Z;
  swap_used_gb : Z }.

Definition get_memory_info (p : platform) : result meminfo :=
  memory ← p_virtual_memory p;
  swap ← p_swap_memory p;
  Ok {| total_memory_gb := gb2 (vm_total memory);
        used_memory_gb := gb2 (vm_used memory);
        available_memory_gb := gb2 (vm_available memory);
        memory_percent_m := vm_percent memory;
        swap_total_gb := gb2 (sw_total swap);
        swap_used_gb := gb2 (sw_used swap) |}.

(** ** [get_disk_info] *)

Record disk_entry := {
  d_mountpoint : string;
  total_gb : Z;
  used_gb : Z;
  free_gb : Z;
  percent_used : Q }.

Definition disk_entry_of (mp : string) (u : usage) : disk_entry :=
  {| d_mountpoint := mp;
     total_gb := gb2 (u_total u);
     used_gb := gb2 (u_used u);
     free_gb := gb2 (u_free u);
     percent_used := u_percent u |}.

(** The [for partition in ...] loop: [disk_info[partition.device] = ...],
    [except PermissionError: continue]; any other exception leaves the
    method. *)
Fixpoint disk_loop (du : string -> result usage) (parts : list partition)
    (acc : gmap string disk_entry) : result (gmap string disk_entry) :=
  match parts with
  | [] => Ok acc
  | part :: rest =>
      match du (mountpoint part) with
      | Ok u => disk_loop du rest (<[device part := disk_entry_of (mountpoint part) u]> acc)
      | Err PermissionError => disk_loop du rest acc
      | Err e => Err e
      end
  end.

Definition get_disk_info (p : platform) : result (gmap string disk_entry) :=
  parts ← p_disk_partitions p;
  disk_loop (p_disk_usage p) parts ∅.

(** ** [get_cpu_info] *)

Record cpuinfo := {
  cpu_percent_c : Q;
  cpu_cores : option Z;
  cpu_threads : option Z;
  per_core_usage : list Q }.

Definition get_cpu_info (p : platform) : result cpuinfo :=
  pc ← p_cpu_percent p;
  cores ← p_cpu_count_physical p;
  threads ← p_cpu_count_logical p;
  per_core ← p_cpu_percent_percpu p;
  Ok {| cpu_percent_c := pc; cpu_cores := cores;
        cpu_threads := threads; per_core_usage := per_core |}.

(** ** [get_network_info] *)

Record netinfo := {
  n_bytes_sent : Z; n_bytes_received : Z;
  n_packets_sent : Z; n_packets_received : Z }.

Definition get_network_info (p : platform) : result netinfo :=
  net_io ← p_net_io_counters p;
  Ok {| n_bytes_sent := bytes_sent net_io;
        n_bytes_received := bytes_recv net_io;
        n_packets_sent := packets_sent net_io;
        n_packets_received := packets_recv net_io |}.

(** ** [get_system_info] *)

(** Python's [int] on a float: truncation towards zero. *)
Definition py_int (x : Q) : Z := Z.quot (Qnum x) (Zpos (Qden x)).

(** [boot_time] holds the timestamp that [datetime.fromtimestamp(...)
    .isoformat()] prints. *)
Record sysinfo := {
  hostname : string;
  platform_name : string;
  boot_time : Q;
  uptime_seconds : Z }.

Definition get_system_info (p : platform) : result sysinfo :=
  h ← p_hostname p;
  s ← p_system p;
  bt ← p_boot_time p;
  bt2 ← p_boot_time p;
  Ok {| hostname := h; platform_name := s; boot_time := bt;
        uptime_seconds := py_int (p_clock p - bt2)%Q |}.

(** ** [get_top_processes] *)

(** The enumeration loop: [processes.append(proc.info)], skipping
    [psutil.NoSuchProcess] and [psutil.AccessDenied]. *)
Fixpoint collect_procs (items : list (result procinfo)) : result (list procinfo) :=
  match items with
  | [] => Ok []
  | Ok info :: rest => tl ← collect_procs rest; Ok (info :: tl)
  | Err NoSuchProcess :: rest => collect_procs rest
  | Err AccessDenied :: rest => collect_procs rest
  | Err e :: _ => Err e
  end.

Section Sorting.
Variable key : procinfo -> Q.

(** Insert [x], which comes before every element of [l] in the input,
    into [l], sorted by decreasing key: [x] goes before the first element
    whose key is not greater than its own, so equal keys keep their input
    order. *)
Fixpoint insert_desc (x : procinfo) (l : list procinfo) : list procinfo :=
  match l with
  | [] => [x]
  | y :: t => if Qle_bool (key y) (key x) then x :: y :: t else y :: insert_desc x t
  end.

(** [sorted(l, key=key, reverse=True)]: Python's sort is stable and
    [reverse=True] keeps equal keys in input order. *)
Fixpoint sorted_desc (l : list procinfo) : list procinfo :=
  match l with
  | [] => []
  | x :: t => insert_desc x (sorted_desc t)
  end.
End Sorting.

(** Python's [l[:k]]: a negative [k] counts from the end. *)
Definition py_prefix {A} (l : list A) (k : Z) : list A :=
  if 0 <=? k then firstn (Z.to_nat k) l
  else firstn (Z.to_nat (Z.of_nat (length l) + k)) l.

(** [key(x)] is [None]. *)
Definition key_missing (f : procinfo -> option Q) (x : procinfo) : bool :=
  match f x with
  | None => true
  | Some _ => false
  end.

(** The number a key compares as; [0] stands for [None] only in lists that
    [py_sorted_desc] sorts without comparing anything. *)
Definition metric (f : procinfo -> option Q) (x : procinfo) : Q := default 0%Q (f x).

(** [sorted(l, key=f, reverse=True)]. With two or more elements every
    element takes part in a comparison, and comparing [None] with a float
    or with [None] raises [TypeError]. *)
Definition py_sorted_desc (f : procinfo -> option Q) (l : list procinfo) :
    result (list procinfo) :=
  if (2 <=? length l)%nat && existsb (key_missing f) l then Err TypeError
  else Ok (sorted_desc (metric f) l).

Record topprocs := {
  top_cpu_processes : list procinfo;
  top_memory_processes : list procinfo }.

(** The two sorts and slices of [get_top_processes], in order. *)
Definition top_of (processes : list procinfo) (top_n : Z) : result topprocs :=
  by_cpu ← py_sorted_desc cpu_percent processes;
  let top_cpu := py_prefix by_cpu top_n in
  by_memory ← py_sorted_desc memory_percent processes;
  let top_memory := py_prefix by_memory top_n in
  Ok {| top_cpu_processes := top_cpu; top_memory_processes := top_memory |}.

Definition get_top_processes (p : platform) (top_n : Z) : result topprocs :=
  items ← p_process_iter p;
  processes ← collect_procs items;
  top_of processes top_n.

(** ** [monitor] *)

Inductive dval :=
| DTimestamp (t : Q)
| DSystem (s : sysinfo)
| DCpu (c : cpuinfo)
| DMemory (m : meminfo)
| DDisk (d : gmap string disk_entry)
| DNetwork (n : netinfo)
| DProcesses (t : topprocs).

Definition snapshot := list (string * dval).

(** The entries of the dict literal in [monitor] after ["timestamp"], in
    evaluation order; [get_top_processes] is called with its default
    [top_n=5]. *)
Definition collectors : list (string * (platform -> result dval)) :=
  [("system", fun p => s ← get_system_info p; Ok (DSystem s));
   ("cpu", fun p => c ← get_cpu_info p; Ok (DCpu c));
   ("memory", fun p => m ← get_memory_info p; Ok (DMemory m));
   ("disk", fun p => d ← get_disk_info p; Ok (DDisk d));
   ("network", fun p => n ← get_network_info p; Ok (DNetwork n));
   ("processes", fun p => t ← get_top_processes p 5; Ok (DProcesses t))].

Fixpoint run_collectors (cs : list (string * (platform -> result dval)))
    (p : platform) : result snapshot :=
  match cs with
  | [] => Ok []
  | (k, c) :: rest => v ← c p; vs ← run_collectors rest p; Ok ((k, v) :: vs)
  end.

Definition monitor (p : platform) : result snapshot :=
  domains ← run_collectors collectors p;
  Ok (("timestamp", DTimestamp (p_clock p)) :: domains).

(** ** [log_monitoring_data] *)

Fixpoint str_repeat (n : nat) (s : string) : string :=
  match n with
  | O => ""
  | S m => s +:+ str_repeat m s
  end.

(** ["\n"] *)
Definition newline : string := String (Ascii.ascii_of_nat 10) EmptyString.

(** The file system as a map from paths to contents. [open(path, 'a')]
    creates a missing file empty and writes at its end. [json_dumps] is
    [json.dumps(_, indent=2)], any function from snapshots to text. *)
Section Log.
Variable json_dumps : snapshot -> string.

Definition log_record (data : snapshot) : string :=
  json_dumps data +:+ newline +:+ str_repeat 80 "=" +:+ newline.

Definition log_monitoring_data (fs : gmap string string) (log_file : string)
    (data : snapshot) : gmap string string :=
  <[log_file := default "" (fs !! log_file) +:+ log_record data]> fs.
End Log.

(** ** [main]: timing of the loop

    One pass of the [while True] body takes [d] milliseconds to collect,
    log and print, then [time.sleep(5)] waits 5000 ms. Given the start time
    of the first pass and the processing times of the passes, [tick_starts]
    lists the start times of the passes (the times [datetime.now()] is read
    as the snapshot's timestamp). *)
Definition sleep_ms : Z := 5000.

Fixpoint tick_starts (start : Z) (ds : list Z) : list Z :=
  start :: match ds with
           | [] => []
           | d :: rest => tick_starts (start + d + sleep_ms) rest
           end.

(** ** [main]: Ctrl+C and exceptions

    A pass of [while True] calls [monitor.monitor()],
    [monitor.log_monitoring_data(data)], [monitor.print_summary(data)] and
    [time.sleep(5)]. A stage names the stretch of a pass an exception can
    arrive in:
    - [Collect]: while [monitor()] runs;
    - [LogWrite]: in [log_monitoring_data] before [f.write] has returned;
    - [LogClose]: after [f.write] has returned: leaving the [with] block
      closes the file, which writes the record out;
    - [PrintSummary]: while [print_summary] runs;
    - [Sleep]: during [time.sleep(5)].
    The exception is [KeyboardInterrupt] (Ctrl+C), caught by the
    [except KeyboardInterrupt] clause, which prints the stop message and
    returns ([Stopped]), or any other exception, which nothing catches: it
    leaves [main] ([Crashed]). An exception raised by [monitor()] itself
    is the [Err] of [monitor] on the platform of that pass. [written]
    lists the snapshots whose record reached the log, [printed] those
    whose summary was printed in full. *)
Inductive stage := Collect | LogWrite | LogClose | PrintSummary | Sleep.

Inductive event := Interrupt | Raise (e : exn).

Inductive status := Running | Stopped | Crashed (e : exn).

Record mstate := { written : list snapshot; printed : list snapshot; status_of : status }.

Definition init_state : mstate := {| written := []; printed := []; status_of := Running |}.

Definition stage_eqb (a b : stage) : bool :=
  match a, b with
  | Collect, Collect | LogWrite, LogWrite | LogClose, LogClose
  | PrintSummary, PrintSummary | Sleep, Sleep => true
  | _, _ => false
  end.

(** An outside exception, if any: in pass [i], stage [s], event [ev]. *)
Definition fault := option (nat * stage * event).

Definition fault_at (f : fault) (i : nat) (s : stage) : option event :=
  match f with
  | Some (j, t, ev) => if Nat.eqb i j && stage_eqb s t then Some ev else None
  | None => None
  end.

Definition ev_status (ev : event) : status :=
  match ev with
  | Interrupt => Stopped
  | Raise e => Crashed e
  end.

(** [main] leaves the loop. *)
Definition halt (ev : event) (st : mstate) : mstate :=
  {| written := written st; printed := printed st; status_of := ev_status ev |}.

Definition log_snapshot (data : snapshot) (st : mstate) : mstate :=
  {| written := written st ++ [data]; printed := printed st; status_of := status_of st |}.

Definition print_snapshot (data : snapshot) (st : mstate) : mstate :=
  {| written := written st; printed := printed st ++ [data]; status_of := status_of st |}.

(** Pass [i] on the platform [plats i]; the boolean tells whether [main]
    left the loop. *)
Definition run_pass (plats : nat -> platform) (f : fault) (i : nat) (st : mstate) :
    mstate * bool :=
  match fault_at f i Collect with
  | Some ev => (halt ev st, true)
  | None =>
      match monitor (plats i) with
      | Err e => (halt (Raise e) st, true)
      | Ok data =>
          match fault_at f i LogWrite with
          | Some ev => (halt ev st, true)
          | None =>
              let st1 := log_snapshot data st in
              match fault_at f i LogClose with
              | Some ev => (halt ev st1, true)
              | None =>
                  match fault_at f i PrintSummary with
                  | Some ev => (halt ev st1, true)
                  | None =>
                      let st2 := print_snapshot data st1 in
                      match fault_at f i Sleep with
                      | Some ev => (halt ev st2, true)
                      | None => (st2, false)
                      end
                  end
              end
          end
      end
  end.

(** At most [fuel] passes of [while True], starting at pass [i]. *)
Fixpoint run_main (fuel : nat) (plats : nat -> platform) (f : fault) (i : nat)
    (st : mstate) : mstate :=
  match fuel with
  | O => st
  | S n =>
      let '(st', left_loop) := run_pass plats f i st in
      if left_loop then st' else run_main n plats f (S i) st'
  end.

(** ** Mounts that answer the usage query *)

(** The partitions whose [disk_usage] returns. *)
Definition accessible (du : string -> result usage) (parts : list partition) :
    list partition :=
  List.filter (fun part => match du (mountpoint part) with Ok _ => true | Err _ => false end)
    parts.

(** The [disk_info[device] = entry] assignments the loop performs, in
    order. *)
Fixpoint disk_entries (du : string -> result usage) (parts : list partition) :
    list (string * disk_entry) :=
  match parts with
  | [] => []
  | part :: rest =>
      match du (mountpoint part) with
      | Ok u => (device part, disk_entry_of (mountpoint part) u) :: disk_entries du rest
      | Err _ => disk_entries du rest
      end
  end.

(** Only [PermissionError] (or no exception) from each usage query. *)
Definition only_permission_failures (du : string -> result usage)
    (parts : list partition) : Prop :=
  Forall (fun part => (exists u, du (mountpoint part) = Ok u) \/
                      du (mountpoint part) = Err PermissionError) parts.

(** The value the last assignment to [dev] in [es] stores, if any. *)
Definition last_assigned (dev : string) (es : list (string * disk_entry)) :
    option disk_entry :=
  fold_left (fun o kv => if String.eqb kv.1 dev then Some kv.2 else o) es None.

(** ** [SystemMonitor.__init__] and [ensure_log_file] *)

(** [Path(log_file).touch(exist_ok=True)]: creates the file empty when it
    is missing and leaves the content of an existing file alone. *)
Definition ensure_log_file (fs : gmap string string) (log_file : string) :
    gmap string string :=
  match fs !! log_file with
  | Some _ => fs
  | None => <[log_file := ""]> fs
  end.

(** [SystemMonitor()] as [main] calls it: default [log_file]. *)
Definition default_log_file : string := "system_monitor.log".

Definition init_monitor (fs : gmap string string) : gmap string string :=
  ensure_log_file fs default_log_file.

(** ** Process items the enumeration loop skips *)

(** An item [collect_procs] accepts: read, or raising one of the two
    exceptions it catches. *)
Definition skippable (r : result procinfo) : bool :=
  match r with
  | Ok _ | Err NoSuchProcess | Err AccessDenied => true
  | Err _ => false
  end.

(** The infos of the items that were read, in order. *)
Fixpoint ok_items (items : list (result procinfo)) : list procinfo :=
  match items with
  | [] => []
  | Ok info :: rest => info :: ok_items rest
  | Err _ :: rest => ok_items rest
  end.

Definition sum_Z (l : list Z) : Z := fold_right Z.add 0 l.

(** ** Which exception a call raises *)








(** ** What a pass leaves behind when an exception ends it *)

(** In the log, from the pass ended in stage [s] with snapshot [x]. *)
Definition written_before (s : stage) (x : snapshot) : list snapshot :=
  match s with
  | Collect | LogWrite => []
  | LogClose | PrintSummary | Sleep => [x]
  end.

(** On the screen, printed in full. *)
Definition printed_before (s : stage) (x : snapshot) : list snapshot :=
  match s with
  | Sleep => [x]
  | _ => []
  end.

(** ** Concrete platforms *)

Definition mem_sample : vmem :=
  {| vm_total := 16000000000; vm_used := 8000000000;
     vm_available := 4000000000; vm_percent := 75 # 1 |}.

Definition root_usage : usage :=
  {| u_total := 500000000000; u_used := 200000000000;
     u_free := 300000000000; u_percent := 40 # 1 |}.

(** [/] and a bind mount of the same device at [/srv]; [/root/secret] is
    not readable. *)
Definition sample_partitions : list partition :=
  [{| device := "/dev/sda1"; mountpoint := "/" |};
   {| device := "/dev/sdb1"; mountpoint := "/root/secret" |};
   {| device := "/dev/sda1"; mountpoint := "/srv" |}].

Definition sample_usage (mp : string) : result usage :=
  if String.eqb mp "/root/secret" then Err PermissionError else Ok root_usage.

Definition sample_procs : list (result procinfo) :=
  [Ok {| pid := 1; name := "init"; cpu_percent := Some (0 # 1); memory_percent := Some (1 # 10) |};
   Ok {| pid := 7; name := "a"; cpu_percent := Some (5 # 1); memory_percent := Some (2 # 1) |};
   Err NoSuchProcess;
   Ok {| pid := 9; name := "b"; cpu_percent := Some (5 # 1); memory_percent := Some (3 # 1) |};
   Ok {| pid := 12; name := "c"; cpu_percent := Some (10 # 1); memory_percent := Some (2 # 1) |}].

(** The processes [get_top_processes] keeps from [sample_procs]. *)
Definition sample_population : list procinfo :=
  [{| pid := 1; name := "init"; cpu_percent := Some (0 # 1); memory_percent := Some (1 # 10) |};
   {| pid := 7; name := "a"; cpu_percent := Some (5 # 1); memory_percent := Some (2 # 1) |};
   {| pid := 9; name := "b"; cpu_percent := Some (5 # 1); memory_percent := Some (3 # 1) |};
   {| pid := 12; name := "c"; cpu_percent := Some (10 # 1); memory_percent := Some (2 # 1) |}].

Definition sample_platform : platform :=
  {| p_hostname := Ok "host";
     p_system := Ok "Linux";
     p_boot_time := Ok (1000 # 1);
     p_clock := 5000 # 1;
     p_cpu_percent := Ok (25 # 2);
     p_cpu_count_physical := Ok (Some 2);
     p_cpu_count_logical := Ok (Some 4);
     p_cpu_percent_percpu := Ok [10 # 1; 15 # 1; 12 # 1; 13 # 1];
     p_virtual_memory := Ok mem_sample;
     p_swap_memory := Ok {| sw_total := 2147483648; sw_used := 0 |};
     p_disk_partitions := Ok sample_partitions;
     p_disk_usage := sample_usage;
     p_net_io_counters := Ok {| bytes_sent := 100; bytes_recv := 200;
                                packets_sent := 3; packets_recv := 4 |};
     p_process_iter := Ok sample_procs |}.

(** The same host, where [psutil.cpu_percent] raises [OSError]. *)
Definition cpu_failing_platform : platform :=
  {| p_hostname := Ok "host";
     p_system := Ok "Linux";
     p_boot_time := Ok (1000 # 1);
     p_clock := 5000 # 1;
     p_cpu_percent := Err OSError;
     p_cpu_count_physical := Ok (Some 2);
     p_cpu_count_logical := Ok (Some 4);
     p_cpu_percent_percpu := Ok [10 # 1; 15 # 1; 12 # 1; 13 # 1];
     p_virtual_memory := Ok mem_sample;
     p_swap_memory := Ok {| sw_total := 2147483648; sw_used := 0 |};
     p_disk_partitions := Ok sample_partitions;
     p_disk_usage := sample_usage;
     p_net_io_counters := Ok {| bytes_sent := 100; bytes_recv := 200;
                                packets_sent := 3; packets_recv := 4 |};
     p_process_iter := Ok sample_procs |}.

(** [sample_platform] with another process enumeration. *)
Definition with_procs (p : platform) (items : list (result procinfo)) : platform :=
  {| p_hostname := p_hostname p;
     p_system := p_system p;
     p_boot_time := p_boot_time p;
     p_clock := p_clock p;
     p_cpu_percent := p_cpu_percent p;
     p_cpu_count_physical := p_cpu_count_physical p;
     p_cpu_count_logical := p_cpu_count_logical p;
     p_cpu_percent_percpu := p_cpu_percent_percpu p;
     p_virtual_memory := p_virtual_memory p;
     p_swap_memory := p_swap_memory p;
     p_disk_partitions := p_disk_partitions p;
     p_disk_usage := p_disk_usage p;
     p_net_io_counters := p_net_io_counters p;
     p_process_iter := Ok items |}.

(** Two processes; reading the cpu percent of pid 1 was denied, so
    [process_iter] put [None] in its place. *)
Definition none_metric_procs : list (result procinfo) :=
  [Ok {| pid := 1; name := "kernel_task"; cpu_percent := None; memory_percent := Some (1 # 2) |};
   Ok {| pid := 2; name := "a"; cpu_percent := Some (3 # 1); memory_percent := Some (1 # 1) |}].

Definition none_metric_platform : platform := with_procs sample_platform none_metric_procs.

(** What [monitor] returns on [sample_platform]. *)
Definition sample_snapshot : snapshot :=
  match monitor sample_platform with
  | Ok s => s
  | Err _ => []
  end.

(** What [get_memory_info] returns on [sample_platform]. *)
Definition sample_meminfo : meminfo :=
  {| total_memory_gb := 1490; used_memory_gb := 745;
     available_memory_gb := 373; memory_percent_m := 75 # 1;
     swap_total_gb := 200; swap_used_gb := 0 |}.

(** [sample_platform] with other mounts. *)
Definition with_disks (p : platform) (parts : list partition)
    (du : string -> result usage) : platform :=
  {| p_hostname := p_hostname p;
     p_system := p_system p;
     p_boot_time := p_boot_time p;
     p_clock := p_clock p;
     p_cpu_percent := p_cpu_percent p;
     p_cpu_count_physical := p_cpu_count_physical p;
     p_cpu_count_logical := p_cpu_count_logical p;
     p_cpu_percent_percpu := p_cpu_percent_percpu p;
     p_virtual_memory := p_virtual_memory p;
     p_swap_memory := p_swap_memory p;
     p_disk_partitions := Ok parts;
     p_disk_usage := du;
     p_net_io_counters := p_net_io_counters p;
     p_process_iter := p_process_iter p |}.

(** Five mounts on five devices; two of them are not readable. *)
Definition five_partitions : list partition :=
  [{| device := "/dev/sda1"; mountpoint := "/" |};
   {| device := "/dev/sda2"; mountpoint := "/root/a" |};
   {| device := "/dev/sdb1"; mountpoint := "/home" |};
   {| device := "/dev/sdc1"; mountpoint := "/root/b" |};
   {| device := "/dev/sdd1"; mountpoint := "/data" |}].

Definition five_usage (mp : string) : result usage :=
  if String.eqb mp "/root/a" || String.eqb mp "/root/b" then Err PermissionError
  else Ok root_usage.

Definition five_platform : platform :=
  with_disks sample_platform five_partitions five_usage.

(** A host where the usage query of [/srv] fails with [OSError]. *)
Definition srv_error_usage (mp : string) : result usage :=
  if String.eqb mp "/srv" then Err OSError else sample_usage mp.

(** Platforms of successive passes: the one of pass 1 fails [cpu_percent]. *)
Definition cpu_fails_in_pass_1 (j : nat) : platform :=
  if Nat.eqb j 1 then cpu_failing_platform else sample_platform.

Example gb2_16e9 : gb2 16000000000 = 1490.
Proof. reflexivity. Qed.

Example gb2_2GiB : gb2 2147483648 = 200.
Proof. reflexivity. Qed.

(** Above 2^53 the division rounds: [15250611229803151 / 1024**3] is the
    double [15250611229803152 / 2^30], which rounds to 14203238.52. *)
Example gb2_above_2_53 :
  to_double 15250611229803151 = 15250611229803152 /\ gb2 15250611229803151 = 1420323852.
Proof. split; reflexivity. Qed.

Example disk_sample_size :
  match get_disk_info sample_platform with
  | Ok d => size d = 1%nat
  | Err _ => False
  end.
Proof. vm_compute. reflexivity. Qed.

Example top_sample :
  match get_top_processes sample_platform 2 with
  | Ok t => map pid (top_cpu_processes t) = [12; 7] /\
            map pid (top_memory_processes t) = [9; 7]
  | Err _ => False
  end.
Proof. vm_compute. split; reflexivity. Qed.

Example py_prefix_neg : py_prefix [1; 2; 3] (-1) = [1; 2].
Proof. reflexivity. Qed.

Example monitor_keys :
  match monitor sample_platform with
  | Ok s => map fst s = ["timestamp"; "system"; "cpu"; "memory"; "disk"; "network"; "processes"]
  | Err _ => False
  end.
Proof. vm_compute. reflexivity. Qed.

Example tick_starts_ex : tick_starts 0 [2000; 2100] = [0; 7000; 14100].
Proof. reflexivity. Qed.

Example run_main_ex :
  run_main 3 (fun _ => sample_platform) (Some (1%nat, PrintSummary, Interrupt)) 0 init_state =
  {| written := [sample_snapshot; sample_snapshot]; printed := [sample_snapshot];
     status_of := Stopped |}.
Proof. vm_compute. reflexivity. Qed.

(** ** Helper lemmas *)

Lemma bind_Ok {A B} (r : result A) (f : A -> result B) (b : B) :
  (r ≫= f) = Ok b -> exists a, r = Ok a /\ f a = Ok b.
Proof. destruct r as [a|e]; simpl; [eauto | discriminate]. Qed.

Lemma round_half_even_close (n d : Z) :
  0 < d -> 2 * Z.abs (round_half_even n d * d - n) <= d.
Proof.
  intros Hd. unfold round_half_even.
  pose proof (Z.div_mod n d ltac:(lia)) as Hdm.
  pose proof (Z.mod_pos_bound n d Hd) as Hb.
  set (q := n / d) in *. set (r := n mod d) in *.
  destruct (Z.compare_spec (2 * r) d) as [E|E|E].
  - destruct (Z.even q); nia.
  - nia.
  - nia.
Qed.

Lemma round_half_even_1 (n : Z) : round_half_even n 1 = n.
Proof. unfold round_half_even. rewrite Z.div_1_r, Z.mod_1_r. reflexivity. Qed.

Lemma round_half_even_bounds (n d : Z) :
  0 < d -> n / d <= round_half_even n d <= n / d + 1.
Proof.
  intros Hd. unfold round_half_even.
  destruct (Z.compare (2 * (n mod d)) d); [destruct (Z.even (n / d))| |]; lia.
Qed.

Lemma float_shift_nonneg (b : Z) : 0 <= float_shift b.
Proof. unfold float_shift. lia. Qed.

(** Below 2^53 an integer is a double. *)
Lemma to_double_nonneg_small (b : Z) : 0 <= b < 2 ^ 53 -> to_double_nonneg b = b.
Proof.
  intros Hb. unfold to_double_nonneg, float_shift.
  assert (Hl : Z.log2 b < 53).
  { destruct (Z.eq_dec b 0) as [->|Hne]; [simpl; lia|].
    apply Z.log2_lt_pow2; lia. }
  rewrite Z.max_l by lia. rewrite Z.pow_0_r, round_half_even_1. lia.
Qed.

Lemma to_double_small (b : Z) : Z.abs b < 2 ^ 53 -> to_double b = b.
Proof.
  intros Hb. unfold to_double.
  destruct (Z.ltb_spec b 0); rewrite to_double_nonneg_small; lia.
Qed.

(** ** C5 *)

(** C5 (counterexample): a psutil sample with total 16,000,000,000 and
    used 8,000,000,000 bytes whose reported percent is 75.0 (psutil derives
    it from [available]) gives [memory_percent] 75.0, not the 50.0 of
    used / total. *)
Lemma memory_percent_not_recomputed :
  p_virtual_memory sample_platform = Ok mem_sample /\
  vm_total mem_sample = 16000000000 /\ vm_used mem_sample = 8000000000 /\
  match get_memory_info sample_platform with
  | Ok m => ~ (memory_percent_m m == 50 # 1)%Q
  | Err _ => False
  end.
Proof.
  split; [reflexivity|]. split; [reflexivity|]. split; [reflexivity|].
  vm_compute. discriminate.
Qed.

(** C5 (amended): [memory_percent] is the percent field of psutil's
    [virtual_memory()] sample, copied as it is; total and used do not
    enter it. *)
Theorem memory_percent_copied (p : platform) (m : meminfo) :
  get_memory_info p = Ok m ->
  exists vm, p_virtual_memory p = Ok vm /\ memory_percent_m m = vm_percent vm.
Proof.
  unfold get_memory_info. intros H.
  apply bind_Ok in H as [vm [Hvm H]].
  apply bind_Ok in H as [sw [Hsw H]].
  inversion H; subst. eauto.
Qed.

Lemma memory_percent_copied_witness :
  get_memory_info sample_platform = Ok sample_meminfo /\
  exists vm, p_virtual_memory sample_platform = Ok vm /\
             memory_percent_m sample_meminfo = vm_percent vm.
Proof.
  split; [vm_compute; reflexivity|].
  apply memory_percent_copied. vm_compute. reflexivity.
Defined.

(** ** C6 *)

(** C6 (counterexample): the memory total of 16,000,000,000 bytes is
    recorded as 1490 hundredths of a GiB (14.9), and a total one byte
    larger is recorded the same way. *)
Lemma memory_sizes_not_bytes :
  match get_memory_info sample_platform with
  | Ok m => total_memory_gb m = 1490 /\ total_memory_gb m <> vm_total mem_sample
  | Err _ => False
  end /\
  gb2 16000000000 = gb2 16000000001.
Proof. vm_compute. split; [split; [reflexivity | discriminate] | reflexivity]. Qed.

(** C6 (amended): every memory, swap and disk size field is the byte count
    divided by 1024^3 as a float and rounded to two decimals ([gb2], in
    hundredths): within half a hundredth of a GiB of the float
    [to_double b / 2^30], which is the exact quotient for byte counts below
    2^53. *)
Theorem size_fields_in_rounded_gib (p : platform) (m : meminfo) :
  get_memory_info p = Ok m ->
  (exists vm sw,
     p_virtual_memory p = Ok vm /\ p_swap_memory p = Ok sw /\
     total_memory_gb m = gb2 (vm_total vm) /\ used_memory_gb m = gb2 (vm_used vm) /\
     available_memory_gb m = gb2 (vm_available vm) /\
     swap_total_gb m = gb2 (sw_total sw) /\ swap_used_gb m = gb2 (sw_used sw)) /\
  (forall mp u, total_gb (disk_entry_of mp u) = gb2 (u_total u) /\
                used_gb (disk_entry_of mp u) = gb2 (u_used u) /\
                free_gb (disk_entry_of mp u) = gb2 (u_free u)) /\
  (forall b, 2 * Z.abs (gb2 b * 1024 ^ 3 - to_double b * 100) <= 1024 ^ 3) /\
  (forall b, Z.abs b < 2 ^ 53 -> to_double b = b).
Proof.
  intros H. split; [|split; [|split]].
  - unfold get_memory_info in H.
    apply bind_Ok in H as [vm [Hvm H]].
    apply bind_Ok in H as [sw [Hsw H]].
    inversion H; subst. exists vm, sw. repeat split; assumption.
  - intros mp u. repeat split.
  - intros b. apply round_half_even_close. lia.
  - exact to_double_small.
Qed.

Lemma size_fields_in_rounded_gib_witness :
  get_memory_info sample_platform = Ok sample_meminfo /\
  total_memory_gb sample_meminfo = 1490.
Proof.
  assert (H : get_memory_info sample_platform = Ok sample_meminfo)
    by (vm_compute; reflexivity).
  split; [exact H|].
  destruct (size_fields_in_rounded_gib sample_platform sample_meminfo H)
    as [[vm [sw [Hvm [_ [Ht _]]]]] _].
  rewrite Ht. injection Hvm as <-. reflexivity.
Defined.

(** ** C7 *)

(** C7 (counterexample): two passes that each take 2 s to collect, log and
    print start 7 s apart, not 5 s. *)
Lemma ticks_not_fixed_rate :
  tick_starts 0 [2000; 2000] = [0; 7000; 14000] /\ 7000 - 0 <> sleep_ms.
Proof. split; [reflexivity | discriminate]. Qed.

(** C7 (amended): the loop is fixed-delay: pass [i+1] starts the
    processing time of pass [i] plus 5 s after pass [i] starts. *)
Theorem tick_spacing_fixed_delay (ds : list Z) :
  forall (start : Z) (i : nat) (d : Z),
  nth_error ds i = Some d ->
  exists a, nth_error (tick_starts start ds) i = Some a /\
            nth_error (tick_starts start ds) (S i) = Some (a + d + sleep_ms).
Proof.
  induction ds as [|d0 ds IH]; intros start i d Hd.
  - destruct i; discriminate.
  - destruct i as [|i]; simpl in Hd.
    + injection Hd as <-. exists start. split; [reflexivity|].
      simpl. destruct ds; reflexivity.
    + destruct (IH (start + d0 + sleep_ms) i d Hd) as [a [Ha Hb]].
      exists a. split; assumption.
Qed.

Lemma tick_spacing_fixed_delay_witness :
  nth_error [2000; 2000] 1 = Some 2000 /\
  exists a, nth_error (tick_starts 0 [2000; 2000]) 1 = Some a /\
            nth_error (tick_starts 0 [2000; 2000]) 2 = Some (a + 2000 + sleep_ms).
Proof.
  split; [reflexivity|].
  apply (tick_spacing_fixed_delay [2000; 2000] 0 1 2000). reflexivity.
Defined.

(** ** C8 *)

Lemma fault_at_other (i k : nat) (s t : stage) (ev : event) :
  k <> i -> fault_at (Some (i, s, ev)) k t = None.
Proof. intros Hne. unfold fault_at. apply Nat.eqb_neq in Hne. rewrite Hne. reflexivity. Qed.

(** A pass with no outside exception whose [monitor()] returns. *)
Lemma run_pass_ok (plats : nat -> platform) (f : fault) (k : nat) (st : mstate)
    (x : snapshot) :
  (forall t, fault_at f k t = None) -> monitor (plats k) = Ok x ->
  run_pass plats f k st =
  ({| written := written st ++ [x]; printed := printed st ++ [x];
      status_of := status_of st |}, false).
Proof. intros Hf Hm. unfold run_pass. rewrite !Hf, Hm. reflexivity. Qed.

(** The pass an outside exception ends. *)
Lemma run_pass_here (plats : nat -> platform) (i : nat) (s : stage) (ev : event)
    (st : mstate) (x : snapshot) :
  s = Collect \/ monitor (plats i) = Ok x ->
  run_pass plats (Some (i, s, ev)) i st =
  ({| written := written st ++ written_before s x;
      printed := printed st ++ printed_before s x; status_of := ev_status ev |}, true).
Proof.
  intros Hs. unfold run_pass, fault_at. rewrite Nat.eqb_refl.
  destruct Hs as [->|Hm].
  - simpl. rewrite !app_nil_r. reflexivity.
  - rewrite Hm. destruct s; simpl; rewrite ?app_nil_r; reflexivity.
Qed.

Lemma run_main_until (plats : nat -> platform) (snaps : nat -> snapshot) (i : nat)
    (s : stage) (ev : event) :
  forall (m fuel k : nat) (st : mstate),
  i = (m + k)%nat -> (m < fuel)%nat ->
  (forall j, (k <= j < i)%nat -> monitor (plats j) = Ok (snaps j)) ->
  s = Collect \/ monitor (plats i) = Ok (snaps i) ->
  run_main fuel plats (Some (i, s, ev)) k st =
  {| written := written st ++ map snaps (seq k m) ++ written_before s (snaps i);
     printed := printed st ++ map snaps (seq k m) ++ printed_before s (snaps i);
     status_of := ev_status ev |}.
Proof.
  induction m as [|m IH]; intros fuel k st Hi Hf Hok Hs;
    (destruct fuel as [|fuel]; [lia|]); cbn [run_main].
  - subst i. simpl Nat.add in *. rewrite (run_pass_here plats k s ev st (snaps k) Hs).
    reflexivity.
  - rewrite (run_pass_ok plats _ k st (snaps k)).
    + rewrite (IH fuel (S k)) by (try lia; auto with lia).
      simpl. rewrite <- !app_assoc. reflexivity.
    + intros t. apply fault_at_other. lia.
    + apply Hok. lia.
Qed.

(** C8 (counterexample): Ctrl+C while pass 1 is collecting ends [main]
    without completing pass 1: only the record of pass 0 is in the log and
    only its summary was printed. *)
Lemma interrupt_abandons_tick :
  let st := run_main 3 (fun _ => sample_platform) (Some (1%nat, Collect, Interrupt))
              0 init_state in
  status_of st = Stopped /\ length (written st) = 1%nat /\ length (printed st) = 1%nat.
Proof. vm_compute. split; [reflexivity|]. split; reflexivity. Qed.

(** C8 (amended): Ctrl+C ends [main] at once, in the stage it interrupts:
    every earlier pass is complete, the interrupted pass is abandoned (its
    record is in the log only if [f.write] had returned, its summary
    printed in full only if it was sleeping), and the loop is stopped. *)
Theorem interrupt_stops_immediately (plats : nat -> platform) (snaps : nat -> snapshot)
    (n i : nat) (s : stage) :
  (i < n)%nat ->
  (forall j, (j < i)%nat -> monitor (plats j) = Ok (snaps j)) ->
  s = Collect \/ monitor (plats i) = Ok (snaps i) ->
  run_main n plats (Some (i, s, Interrupt)) 0 init_state =
  {| written := map snaps (seq 0 i) ++ written_before s (snaps i);
     printed := map snaps (seq 0 i) ++ printed_before s (snaps i);
     status_of := Stopped |}.
Proof.
  intros Hi Hok Hs.
  rewrite (run_main_until plats snaps i s Interrupt i n 0 init_state).
  - reflexivity.
  - lia.
  - exact Hi.
  - intros j Hj. apply Hok. lia.
  - exact Hs.
Qed.

Lemma interrupt_stops_immediately_witness :
  run_main 3 (fun _ => sample_platform) (Some (1%nat, LogClose, Interrupt)) 0 init_state =
  {| written := [sample_snapshot; sample_snapshot]; printed := [sample_snapshot];
     status_of := Stopped |}.
Proof.
  assert (Hm : monitor sample_platform = Ok sample_snapshot) by (vm_compute; reflexivity).
  exact (interrupt_stops_immediately (fun _ => sample_platform) (fun _ => sample_snapshot)
           3 1 LogClose ltac:(lia) (fun j _ => Hm) (or_intror Hm)).
Defined.

(** ** C10 *)

(** C10: appending a snapshot to the log keeps the former content of the
    log file (empty if the file did not exist) as a prefix of the new one. *)
Theorem log_append_preserves_prefix (json_dumps : snapshot -> string)
    (fs : gmap string string) (log_file : string) (data : snapshot) :
  exists suffix,
    log_monitoring_data json_dumps fs log_file data !! log_file =
    Some (default "" (fs !! log_file) +:+ suffix).
Proof.
  exists (log_record json_dumps data).
  unfold log_monitoring_data. apply lookup_insert_eq.
Qed.

(** ** Running the collectors *)

Lemma run_collectors_Ok (cs : list (string * (platform -> result dval)))
    (p : platform) (s : snapshot) :
  run_collectors cs p = Ok s -> map fst s = map fst cs.
Proof.
  revert s. induction cs as [|[k c] cs IH]; intros s H; simpl in H.
  - inversion H. reflexivity.
  - apply bind_Ok in H as [v [_ H]].
    apply bind_Ok in H as [vs [Hvs H]].
    inversion H; subst. simpl. f_equal. apply IH. exact Hvs.
Qed.

Lemma run_collectors_ok_iff (cs : list (string * (platform -> result dval)))
    (p : platform) :
  (exists s, run_collectors cs p = Ok s) <->
  Forall (fun kc => exists v, kc.2 p = Ok v) cs.
Proof.
  induction cs as [|[k c] cs IH]; simpl.
  - split; [constructor | eauto].
  - rewrite Forall_cons. split.
    + intros [s H]. apply bind_Ok in H as [v [Hv H]].
      apply bind_Ok in H as [vs [Hvs _]].
      split; [eauto | apply IH; eauto].
    + intros [[v Hv] Hrest]. apply IH in Hrest as [vs Hvs].
      simpl in Hv. rewrite Hv. simpl. rewrite Hvs. simpl. eauto.
Qed.

(** ** Where exceptions go *)







(** ** C1 *)



(** ** C4 *)

(** C4: a snapshot built by [monitor] holds the timestamp and then exactly
    one entry per collector, under the collector's key, in order, with no
    key twice. *)
Theorem monitor_one_entry_per_collector (p : platform) (s : snapshot) :
  monitor p = Ok s ->
  exists domains,
    s = ("timestamp", DTimestamp (p_clock p)) :: domains /\
    map fst domains = map fst collectors /\
    length domains = length collectors /\
    NoDup (map fst s).
Proof.
  unfold monitor. intros H.
  apply bind_Ok in H as [ds [Hds H]]. inversion H; subst.
  apply run_collectors_Ok in Hds.
  exists ds. split; [reflexivity|]. split; [exact Hds|]. split.
  - rewrite <- (length_map fst ds), Hds, length_map. reflexivity.
  - simpl. rewrite Hds. apply (bool_decide_unpack _). vm_compute. reflexivity.
Qed.

Lemma monitor_one_entry_per_collector_witness :
  exists s, monitor sample_platform = Ok s /\
  exists domains,
    s = ("timestamp", DTimestamp (p_clock sample_platform)) :: domains /\
    map fst domains = map fst collectors /\
    length domains = length collectors /\
    NoDup (map fst s).
Proof.
  destruct (monitor sample_platform) as [s|e] eqn:H.
  - exists s. split; [reflexivity|].
    exact (monitor_one_entry_per_collector sample_platform s H).
  - vm_compute in H. discriminate.
Defined.

(** ** Sorting lemmas *)

(** [a] comes before [b] in a list sorted by decreasing [key], equal keys
    ordered by increasing pid. *)
Definition desc_before (key : procinfo -> Q) (a b : procinfo) : Prop :=
  (key b < key a)%Q \/ ((key a == key b)%Q /\ pid a < pid b).

Section SortedDesc.
Variable key : procinfo -> Q.

Lemma insert_desc_perm (x : procinfo) (l : list procinfo) :
  Permutation (insert_desc key x l) (x :: l).
Proof.
  induction l as [|y t IH]; simpl; [reflexivity|].
  destruct (Qle_bool (key y) (key x)); [reflexivity|].
  rewrite IH. apply perm_swap.
Qed.

Lemma sorted_desc_perm (l : list procinfo) :
  Permutation (sorted_desc key l) l.
Proof.
  induction l as [|x t IH]; simpl; [reflexivity|].
  rewrite insert_desc_perm, IH. reflexivity.
Qed.

Lemma insert_desc_hd (y x : procinfo) (t : list procinfo) :
  desc_before key y x -> HdRel (desc_before key) y t ->
  HdRel (desc_before key) y (insert_desc key x t).
Proof.
  intros Hyx Ht. destruct t as [|z t]; simpl.
  - constructor. exact Hyx.
  - destruct (Qle_bool (key z) (key x)); constructor; [exact Hyx|].
    inversion Ht. assumption.
Qed.

Lemma insert_desc_sorted (x : procinfo) (l : list procinfo) :
  Sorted (desc_before key) l -> (forall y, In y l -> pid x < pid y) ->
  Sorted (desc_before key) (insert_desc key x l).
Proof.
  induction l as [|y t IH]; intros Hs Hpid; simpl.
  - repeat constructor.
  - destruct (Qle_bool (key y) (key x)) eqn:Hle.
    + apply Qle_bool_iff, Qle_lteq in Hle.
      constructor; [exact Hs|]. constructor.
      destruct Hle as [Hlt|Heq]; [left; exact Hlt|].
      right. split; [symmetry; exact Heq|]. apply Hpid. left. reflexivity.
    + assert (Hlt : (key x < key y)%Q).
      { apply Qnot_le_lt. intros Hc. apply Qle_bool_iff in Hc. congruence. }
      inversion Hs as [|? ? Ht Hhd]; subst.
      constructor.
      * apply IH; [exact Ht|]. intros z Hz. apply Hpid. right. exact Hz.
      * apply insert_desc_hd; [left; exact Hlt | exact Hhd].
Qed.

(** Stable sort of an input in increasing pid order. *)
Lemma sorted_desc_sorted (l : list procinfo) :
  StronglySorted (fun a b => pid a < pid b) l ->
  Sorted (desc_before key) (sorted_desc key l).
Proof.
  induction l as [|x t IH]; intros Hs; simpl; [constructor|].
  apply StronglySorted_inv in Hs as [Ht Hall].
  apply insert_desc_sorted; [apply IH; exact Ht|].
  intros y Hy. apply (Permutation_in _ (sorted_desc_perm t)) in Hy.
  rewrite List.Forall_forall in Hall. apply Hall. exact Hy.
Qed.
End SortedDesc.

Lemma firstn_sorted {A} (R : A -> A -> Prop) (n : nat) (l : list A) :
  Sorted R l -> Sorted R (firstn n l).
Proof.
  revert l. induction n as [|n IH]; intros l Hs; simpl; [constructor|].
  destruct l as [|x t]; [constructor|].
  inversion Hs as [|? ? Ht Hhd]; subst. constructor; [apply IH; exact Ht|].
  destruct n as [|n]; simpl; [constructor|].
  destruct t as [|y t]; [constructor|]. constructor. inversion Hhd. assumption.
Qed.

Lemma py_prefix_nonneg {A} (l : list A) (k : Z) :
  0 <= k -> py_prefix l k = firstn (Z.to_nat k) l.
Proof. intros Hk. unfold py_prefix. destruct (Z.leb_spec 0 k); [reflexivity | lia]. Qed.

Lemma top_list_props (key : procinfo -> Q) (processes : list procinfo) (top_n : Z) :
  0 <= top_n ->
  StronglySorted (fun a b => pid a < pid b) processes ->
  let l := py_prefix (sorted_desc key processes) top_n in
  Z.of_nat (length l) = Z.min top_n (Z.of_nat (length processes)) /\
  Sorted (desc_before key) l /\
  (forall x, In x l -> In x processes).
Proof.
  intros Hk Hs l. subst l. rewrite py_prefix_nonneg by exact Hk.
  split; [|split].
  - rewrite length_firstn, (Permutation_length (sorted_desc_perm key processes)).
    rewrite Nat2Z.inj_min, Z2Nat.id by exact Hk. reflexivity.
  - apply firstn_sorted, sorted_desc_sorted. exact Hs.
  - intros x Hx. apply (Permutation_in _ (sorted_desc_perm key processes)).
    rewrite <- (firstn_skipn (Z.to_nat top_n) (sorted_desc key processes)).
    apply in_or_app. left. exact Hx.
Qed.

(** ** C2 *)

(** C2 (failing input): [process_iter] yields two processes, and reading
    the cpu percent of pid 1 was denied, so its [cpu_percent] is [None]
    (the [except psutil.AccessDenied] clause never sees it). Sorting by
    cpu percent compares [None] with [3.0]: [get_top_processes] raises
    [TypeError] instead of returning two sorted lists, and so does
    [monitor]. *)
Theorem top_processes_none_metric_raises :
  get_top_processes none_metric_platform 5 = Err TypeError /\
  monitor none_metric_platform = Err TypeError.
Proof. split; vm_compute; reflexivity. Qed.

(** ** Top lists when every metric was read *)

Lemma existsb_key_missing_false (f : procinfo -> option Q) (l : list procinfo) :
  Forall (fun x => is_Some (f x)) l -> existsb (key_missing f) l = false.
Proof.
  induction 1 as [|x l [v Hv] _ IH]; simpl; [reflexivity|].
  unfold key_missing at 1. rewrite Hv. exact IH.
Qed.

Lemma top_of_all_read (processes : list procinfo) (top_n : Z) :
  Forall (fun x => is_Some (cpu_percent x) /\ is_Some (memory_percent x)) processes ->
  top_of processes top_n =
  Ok {| top_cpu_processes := py_prefix (sorted_desc (metric cpu_percent) processes) top_n;
        top_memory_processes :=
          py_prefix (sorted_desc (metric memory_percent) processes) top_n |}.
Proof.
  intros Hall. unfold top_of, py_sorted_desc.
  rewrite !existsb_key_missing_false.
  - rewrite !andb_false_r. reflexivity.
  - eapply Forall_impl; [exact Hall|]. intros x [H _]. exact H.
  - eapply Forall_impl; [exact Hall|]. intros x [_ H]. exact H.
Qed.

(** X16: when every process's cpu and memory percent were read, and
    [process_iter] enumerates in increasing pid order (psutil's order), for
    every [top_n >= 0] both lists returned by [get_top_processes] have
    length [min(top_n, population)], are sorted by decreasing cpu (resp.
    memory) percent, equal percentages ordered by increasing pid, and hold
    processes of the population. *)
Theorem top_processes_sorted (p : platform) (items : list (result procinfo))
    (processes : list procinfo) (top_n : Z) :
  0 <= top_n ->
  p_process_iter p = Ok items ->
  collect_procs items = Ok processes ->
  StronglySorted (fun a b => pid a < pid b) processes ->
  Forall (fun x => is_Some (cpu_percent x) /\ is_Some (memory_percent x)) processes ->
  exists t, get_top_processes p top_n = Ok t /\
    (Z.of_nat (length (top_cpu_processes t)) = Z.min top_n (Z.of_nat (length processes)) /\
     Sorted (desc_before (metric cpu_percent)) (top_cpu_processes t) /\
     (forall x, In x (top_cpu_processes t) -> In x processes)) /\
    (Z.of_nat (length (top_memory_processes t)) = Z.min top_n (Z.of_nat (length processes)) /\
     Sorted (desc_before (metric memory_percent)) (top_memory_processes t) /\
     (forall x, In x (top_memory_processes t) -> In x processes)).
Proof.
  intros Hk Hit Hcol Hs Hall.
  eexists. split.
  - unfold get_top_processes. rewrite Hit. simpl. rewrite Hcol. simpl.
    apply top_of_all_read. exact Hall.
  - split; apply top_list_props; assumption.
Qed.

Lemma top_processes_sorted_witness :
  exists t, get_top_processes sample_platform 2 = Ok t /\
    (Z.of_nat (length (top_cpu_processes t)) = Z.min 2 (Z.of_nat (length sample_population)) /\
     Sorted (desc_before (metric cpu_percent)) (top_cpu_processes t) /\
     (forall x, In x (top_cpu_processes t) -> In x sample_population)) /\
    (Z.of_nat (length (top_memory_processes t)) = Z.min 2 (Z.of_nat (length sample_population)) /\
     Sorted (desc_before (metric memory_percent)) (top_memory_processes t) /\
     (forall x, In x (top_memory_processes t) -> In x sample_population)).
Proof.
  assert (Hcol : collect_procs sample_procs = Ok sample_population) by reflexivity.
  assert (Hs : StronglySorted (fun a b => pid a < pid b) sample_population).
  { repeat constructor; simpl; lia. }
  assert (Hall : Forall (fun x => is_Some (cpu_percent x) /\ is_Some (memory_percent x))
                   sample_population).
  { repeat constructor; eexists; reflexivity. }
  exact (top_processes_sorted sample_platform sample_procs sample_population 2
           ltac:(lia) eq_refl Hcol Hs Hall).
Defined.

(** ** Disk lemmas *)

Definition assign_all (es : list (string * disk_entry)) (m : gmap string disk_entry) :
    gmap string disk_entry :=
  fold_left (fun acc kv => <[kv.1 := kv.2]> acc) es m.

Lemma disk_loop_assigns (du : string -> result usage) (parts : list partition)
    (acc : gmap string disk_entry) :
  only_permission_failures du parts ->
  disk_loop du parts acc = Ok (assign_all (disk_entries du parts) acc).
Proof.
  revert acc. induction parts as [|part rest IH]; intros acc Hf; simpl;
    [reflexivity|].
  apply Forall_cons in Hf as [[[u Hu]|Hu] Hrest]; rewrite Hu; apply IH; exact Hrest.
Qed.

Lemma disk_entries_keys (du : string -> result usage) (parts : list partition) :
  map fst (disk_entries du parts) = map device (accessible du parts).
Proof.
  induction parts as [|part rest IH]; simpl; [reflexivity|].
  destruct (du (mountpoint part)); simpl; rewrite ?IH; reflexivity.
Qed.

Lemma assign_all_lookup (es : list (string * disk_entry)) :
  forall (m : gmap string disk_entry) (dev : string),
  assign_all es m !! dev =
  fold_left (fun o kv => if String.eqb kv.1 dev then Some kv.2 else o) es (m !! dev).
Proof.
  induction es as [|[k v] es IH]; intros m dev; simpl; [reflexivity|].
  rewrite IH, lookup_insert. f_equal.
  destruct (String.eqb_spec k dev); case_decide; congruence.
Qed.

Lemma assign_all_dom (es : list (string * disk_entry)) :
  forall (m : gmap string disk_entry),
  dom (assign_all es m) = list_to_set (map fst es) ∪ dom m.
Proof.
  induction es as [|[k v] es IH]; intros m; simpl.
  - set_solver.
  - rewrite IH, dom_insert_L. set_solver.
Qed.

Lemma size_list_to_set_le (l : list string) :
  (size (list_to_set l : gset string) <= length l /\
   (~ NoDup l -> size (list_to_set l : gset string) < length l))%nat.
Proof.
  induction l as [|x l [IHle IHlt]]; cbn [list_to_set length].
  - split; [apply le_n|]. intros H. exfalso. apply H. constructor.
  - destruct (decide (x ∈ (list_to_set l : gset string))) as [Hin|Hnin].
    + replace ({[x]} ∪ list_to_set l : gset string) with (list_to_set l : gset string)
        by set_solver.
      split; intros; lia.
    + rewrite size_union by set_solver. rewrite size_singleton.
      split; [lia|]. intros Hnd.
      assert (Hl : ~ NoDup l).
      { intros Hl. apply Hnd. constructor; [|exact Hl].
        intros Hx. apply Hnin. apply elem_of_list_to_set. exact Hx. }
      specialize (IHlt Hl). lia.
Qed.

Lemma disk_size (du : string -> result usage) (parts : list partition) :
  size (assign_all (disk_entries du parts) ∅) =
  size (list_to_set (map device (accessible du parts)) : gset string).
Proof.
  rewrite <- size_dom, assign_all_dom, <- disk_entries_keys, dom_empty_L.
  f_equal. set_solver.
Qed.

Lemma last_assigned_nomatch (dev : string) (es : list (string * disk_entry)) :
  forall o, ~ In dev (map fst es) ->
  fold_left (fun o kv => if String.eqb kv.1 dev then Some kv.2 else o) es o = o.
Proof.
  induction es as [|[k v] es IH]; intros o Hn; simpl; [reflexivity|].
  simpl in Hn. destruct (String.eqb_spec k dev); [tauto|].
  apply IH. tauto.
Qed.

Lemma last_assigned_unique (dev : string) (v : disk_entry)
    (es : list (string * disk_entry)) :
  forall o, NoDup (map fst es) -> In (dev, v) es ->
  fold_left (fun o kv => if String.eqb kv.1 dev then Some kv.2 else o) es o = Some v.
Proof.
  induction es as [|[k w] es IH]; intros o Hnd Hin; simpl in *; [contradiction|].
  apply NoDup_cons in Hnd as [Hk Hnd].
  destruct Hin as [[= -> ->]|Hin].
  - rewrite String.eqb_refl. apply last_assigned_nomatch.
    intros Hc. apply Hk. apply list_elem_of_In. exact Hc.
  - apply IH; assumption.
Qed.

Lemma disk_entries_In (du : string -> result usage) (parts : list partition)
    (part : partition) (u : usage) :
  In part parts -> du (mountpoint part) = Ok u ->
  In (device part, disk_entry_of (mountpoint part) u) (disk_entries du parts).
Proof.
  induction parts as [|q rest IH]; intros Hin Hu; simpl in *; [contradiction|].
  destruct Hin as [->|Hin].
  - rewrite Hu. left. reflexivity.
  - destruct (du (mountpoint q)); [right|]; apply IH; assumption.
Qed.

(** ** C3 *)

(** C3 (counterexample): [/] and a bind mount [/srv] of the same device are
    both readable and [/root/secret] is not; the result holds one entry for
    the two readable mounts. *)
Lemma disk_fewer_entries_than_mounts :
  sample_usage "/root/secret" = Err PermissionError /\
  length (accessible sample_usage sample_partitions) = 2%nat /\
  match get_disk_info sample_platform with
  | Ok d => size d = 1%nat
  | Err _ => False
  end.
Proof. vm_compute. split; [reflexivity|]. split; reflexivity. Qed.

Lemma last_assigned_some (dev : string) (v : disk_entry) (es : list (string * disk_entry)) :
  forall o,
  fold_left (fun o kv => if String.eqb kv.1 dev then Some kv.2 else o) es o = Some v ->
  o = Some v \/ In (dev, v) es.
Proof.
  induction es as [|[k w] es IH]; intros o H; simpl in H; [left; exact H|].
  destruct (IH _ H) as [Ho|Hin]; [|right; right; exact Hin].
  destruct (String.eqb_spec k dev) as [->|_].
  - injection Ho as ->. right. left. reflexivity.
  - left. exact Ho.
Qed.

Lemma disk_entries_from (du : string -> result usage) (parts : list partition)
    (dev : string) (v : disk_entry) :
  In (dev, v) (disk_entries du parts) ->
  exists part u, In part (accessible du parts) /\ device part = dev /\
    du (mountpoint part) = Ok u /\ v = disk_entry_of (mountpoint part) u.
Proof.
  induction parts as [|part rest IH]; simpl; [contradiction|].
  destruct (du (mountpoint part)) as [u|e] eqn:Hu; simpl.
  - intros [[= <- <-]|Hin].
    + exists part, u. split; [now left|]. auto.
    + destruct (IH Hin) as (q & w & Hq & Hrest).
      exists q, w. split; [now right | exact Hrest].
  - intros Hin. exact (IH Hin).
Qed.

(** C3 (amended): when every usage query returns or raises
    [PermissionError], [get_disk_info] returns normally; its keys are the
    devices of the readable mounts and every entry is built from a readable
    mount on that device, so the unreadable mounts are left out. When the
    readable mounts are on pairwise distinct devices, there is exactly one
    entry per readable mount, keyed by its device and built from its
    usage. *)
Theorem disk_skips_denied_mounts (p : platform) (parts : list partition) :
  p_disk_partitions p = Ok parts ->
  only_permission_failures (p_disk_usage p) parts ->
  exists d, get_disk_info p = Ok d /\
    (forall dev, is_Some (d !! dev) <-> In dev (map device (accessible (p_disk_usage p) parts))) /\
    (forall dev v, d !! dev = Some v ->
       exists part u, In part (accessible (p_disk_usage p) parts) /\ device part = dev /\
         p_disk_usage p (mountpoint part) = Ok u /\ v = disk_entry_of (mountpoint part) u) /\
    (NoDup (map device (accessible (p_disk_usage p) parts)) ->
     size d = length (accessible (p_disk_usage p) parts) /\
     (forall part u, In part parts -> p_disk_usage p (mountpoint part) = Ok u ->
        d !! device part = Some (disk_entry_of (mountpoint part) u))).
Proof.
  intros Hparts Hf.
  exists (assign_all (disk_entries (p_disk_usage p) parts) ∅).
  split; [unfold get_disk_info; rewrite Hparts; simpl; apply disk_loop_assigns; exact Hf|].
  split; [|split].
  - intros dev. rewrite <- elem_of_dom, assign_all_dom, dom_empty_L, <- disk_entries_keys.
    rewrite elem_of_union, elem_of_list_to_set, list_elem_of_In. set_solver.
  - intros dev v Hv. rewrite assign_all_lookup, lookup_empty in Hv.
    destruct (last_assigned_some dev v _ None Hv) as [Hn|Hin]; [discriminate|].
    apply disk_entries_from. exact Hin.
  - intros Hnd. split.
    + rewrite disk_size, size_list_to_set by exact Hnd. apply length_map.
    + intros part u Hin Hu. rewrite assign_all_lookup, lookup_empty.
      apply last_assigned_unique.
      * rewrite disk_entries_keys. exact Hnd.
      * apply disk_entries_In; assumption.
Qed.

Lemma disk_skips_denied_mounts_witness :
  exists d, get_disk_info five_platform = Ok d /\ size d = 3%nat /\
    (forall dev, is_Some (d !! dev) <-> In dev (map device (accessible five_usage five_partitions))).
Proof.
  assert (Hf : only_permission_failures five_usage five_partitions).
  { unfold only_permission_failures.
    repeat (constructor; [first [left; eexists; reflexivity | right; reflexivity]|]).
    constructor. }
  assert (Hnd : NoDup (map device (accessible five_usage five_partitions))).
  { apply (bool_decide_unpack _). vm_compute. reflexivity. }
  destruct (disk_skips_denied_mounts five_platform five_partitions eq_refl Hf)
    as [d [Hd [Hkeys [_ Hdistinct]]]].
  exists d. split; [exact Hd|]. split; [|exact Hkeys].
  rewrite (proj1 (Hdistinct Hnd)). vm_compute. reflexivity.
Defined.

(** ** C9 *)

(** C9: the result of [get_disk_info] is keyed by device: each device maps
    to the entry of the last readable mount enumerated on it, so there are
    at most as many entries as readable mounts, and strictly fewer as soon
    as two readable mounts share a device. *)
Theorem disk_keyed_by_device (p : platform) (parts : list partition) :
  p_disk_partitions p = Ok parts ->
  only_permission_failures (p_disk_usage p) parts ->
  exists d, get_disk_info p = Ok d /\
    (forall dev, d !! dev = last_assigned dev (disk_entries (p_disk_usage p) parts)) /\
    (size d <= length (accessible (p_disk_usage p) parts))%nat /\
    (~ NoDup (map device (accessible (p_disk_usage p) parts)) ->
     size d < length (accessible (p_disk_usage p) parts))%nat.
Proof.
  intros Hparts Hf.
  exists (assign_all (disk_entries (p_disk_usage p) parts) ∅).
  split; [unfold get_disk_info; rewrite Hparts; simpl; apply disk_loop_assigns; exact Hf|].
  split; [|split].
  - intros dev. rewrite assign_all_lookup, lookup_empty. reflexivity.
  - rewrite disk_size, <- (length_map device). apply size_list_to_set_le.
  - intros Hnd. rewrite disk_size, <- (length_map device).
    apply size_list_to_set_le. exact Hnd.
Qed.

Lemma disk_keyed_by_device_witness :
  only_permission_failures sample_usage sample_partitions /\
  exists d, get_disk_info sample_platform = Ok d /\
    d !! "/dev/sda1" = Some (disk_entry_of "/srv" root_usage) /\
    (size d < length (accessible sample_usage sample_partitions))%nat.
Proof.
  assert (Hf : only_permission_failures sample_usage sample_partitions).
  { unfold only_permission_failures.
    repeat (constructor; [first [left; eexists; reflexivity | right; reflexivity]|]).
    constructor. }
  split; [exact Hf|].
  destruct (disk_keyed_by_device sample_platform sample_partitions eq_refl Hf)
    as [d [Hd [Hlk [_ Hlt]]]].
  exists d. split; [exact Hd|]. split.
  - rewrite Hlk. vm_compute. reflexivity.
  - apply Hlt. intros Hnd. vm_compute in Hnd.
    apply NoDup_cons in Hnd as [Hn _]. apply Hn. left.
Defined.

(** * Further properties of the module *)

(** ** Rounding to hundredths of a GiB *)

Lemma round_half_even_mono (n1 n2 d : Z) :
  0 < d -> n1 <= n2 -> round_half_even n1 d <= round_half_even n2 d.
Proof.
  intros Hd Hn. unfold round_half_even.
  pose proof (Z.div_mod n1 d ltac:(lia)) as E1.
  pose proof (Z.div_mod n2 d ltac:(lia)) as E2.
  pose proof (Z.mod_pos_bound n1 d Hd) as B1.
  pose proof (Z.mod_pos_bound n2 d Hd) as B2.
  pose proof (Z.div_le_mono n1 n2 d Hd Hn) as Hq.
  set (q1 := n1 / d) in *. set (r1 := n1 mod d) in *.
  set (q2 := n2 / d) in *. set (r2 := n2 mod d) in *.
  clearbody q1 r1 q2 r2.
  assert (Hc : q1 < q2 \/ (q1 = q2 /\ r1 <= r2)) by nia.
  destruct Hc as [Hlt | [-> Hr]].
  - destruct (Z.compare_spec (2 * r1) d), (Z.compare_spec (2 * r2) d);
      destruct (Z.even q1), (Z.even q2); lia.
  - destruct (Z.compare_spec (2 * r1) d), (Z.compare_spec (2 * r2) d);
      destruct (Z.even q2); lia.
Qed.

Lemma to_double_nonneg_pos (b : Z) : 0 <= b -> 0 <= to_double_nonneg b.
Proof.
  intros Hb. unfold to_double_nonneg.
  pose proof (float_shift_nonneg b) as He.
  assert (Hp : 0 < 2 ^ float_shift b) by (apply Z.pow_pos_nonneg; lia).
  pose proof (round_half_even_bounds b _ Hp).
  pose proof (Z.div_pos b _ Hb Hp). nia.
Qed.

(** Rounding to a double is monotone. *)
Lemma to_double_nonneg_mono (b1 b2 : Z) :
  0 <= b1 -> b1 <= b2 -> to_double_nonneg b1 <= to_double_nonneg b2.
Proof.
  intros H0 H12. unfold to_double_nonneg.
  assert (Hl : Z.log2 b1 <= Z.log2 b2) by (apply Z.log2_le_mono; exact H12).
  pose proof (float_shift_nonneg b1) as He1.
  assert (He12 : float_shift b1 <= float_shift b2) by (unfold float_shift; lia).
  set (e1 := float_shift b1) in *. set (e2 := float_shift b2) in *.
  assert (Hp1 : 0 < 2 ^ e1) by (apply Z.pow_pos_nonneg; lia).
  assert (Hp2 : 0 < 2 ^ e2) by (apply Z.pow_pos_nonneg; lia).
  destruct (Z.eq_dec e1 e2) as [Heq|Hne].
  - rewrite Heq. apply Z.mul_le_mono_nonneg_r; [lia|].
    apply round_half_even_mono; lia.
  - (* b2 has more significant bits than 53 + e1: every double near b1
       is below 2^(52 + e2), and every double near b2 above it. *)
    assert (He2 : e2 = Z.log2 b2 - 52) by (unfold e1, e2, float_shift in *; lia).
    assert (Hb2 : 0 < b2).
    { destruct (Z.lt_ge_cases 0 b2) as [H|H]; [exact H|].
      rewrite Z.log2_nonpos in He2 by exact H. unfold e1, float_shift in *. lia. }
    assert (Hlo2 : 2 ^ 52 * 2 ^ e2 <= b2).
    { rewrite <- Z.pow_add_r by lia. replace (52 + e2) with (Z.log2 b2) by lia.
      apply Z.log2_spec. exact Hb2. }
    assert (Hq2 : 2 ^ 52 <= b2 / 2 ^ e2).
    { apply Z.div_le_lower_bound; lia. }
    assert (Hup1 : b1 < 2 ^ 53 * 2 ^ e1).
    { rewrite <- Z.pow_add_r by lia.
      destruct (Z.eq_dec b1 0) as [->|Hb1]; [apply Z.pow_pos_nonneg; lia|].
      apply (Z.lt_le_trans _ (2 ^ Z.succ (Z.log2 b1))).
      - apply Z.log2_spec. lia.
      - apply Z.pow_le_mono_r; [lia|]. unfold e1, float_shift. lia. }
    assert (Hq1 : b1 / 2 ^ e1 < 2 ^ 53).
    { apply Z.div_lt_upper_bound; lia. }
    assert (Hpow : 2 ^ 53 * 2 ^ e1 <= 2 ^ 52 * 2 ^ e2).
    { rewrite <- !Z.pow_add_r by lia. apply Z.pow_le_mono_r; lia. }
    pose proof (round_half_even_bounds b1 _ Hp1) as [_ Hr1].
    pose proof (round_half_even_bounds b2 _ Hp2) as [Hr2 _].
    assert (Hx1 : round_half_even b1 (2 ^ e1) <= 2 ^ 53) by lia.
    assert (Hx2 : 2 ^ 52 <= round_half_even b2 (2 ^ e2)) by lia.
    apply (Z.le_trans _ (2 ^ 53 * 2 ^ e1)); [apply Z.mul_le_mono_nonneg_r; lia|].
    apply (Z.le_trans _ (2 ^ 52 * 2 ^ e2)); [exact Hpow|].
    apply Z.mul_le_mono_nonneg_r; lia.
Qed.

(** X1: the GiB figures never decrease when the byte count grows, and are
    never negative for a non-negative byte count. *)
Theorem gb2_monotone (b1 b2 : Z) :
  0 <= b1 -> b1 <= b2 -> 0 <= gb2 b1 <= gb2 b2.
Proof.
  intros H0 H12. unfold gb2, to_double.
  destruct (Z.ltb_spec b1 0) as [H|_]; [lia|].
  destruct (Z.ltb_spec b2 0) as [H|_]; [lia|].
  pose proof (to_double_nonneg_pos b1 H0).
  pose proof (to_double_nonneg_mono b1 b2 H0 H12).
  split.
  - change 0 with (round_half_even (0 * 100) (1024 ^ 3)) at 1.
    apply round_half_even_mono; lia.
  - apply round_half_even_mono; lia.
Qed.

Lemma gb2_monotone_witness :
  0 <= 1000000 /\ 1000000 <= 16000000000 /\ 0 <= gb2 1000000 <= gb2 16000000000.
Proof.
  split; [lia|]. split; [lia|]. apply gb2_monotone; lia.
Defined.

(** ** [uptime_seconds] *)

Lemma py_int_bounds (x : Q) :
  (0 <= x)%Q ->
  0 <= py_int x /\ (inject_Z (py_int x) <= x)%Q /\ (x < inject_Z (py_int x) + 1)%Q.
Proof.
  destruct x as [n d]. unfold py_int, Qle, Qlt, inject_Z, Qplus. simpl.
  intros H. rewrite Z.quot_div_nonneg by lia.
  pose proof (Z.div_mod n (Zpos d) ltac:(lia)).
  pose proof (Z.mod_pos_bound n (Zpos d) ltac:(lia)).
  split; [apply Z.div_pos; lia|]. split; nia.
Qed.

(** X2: when the clock is not behind the boot time, [uptime_seconds] is
    the number of whole seconds elapsed since boot. *)
Theorem uptime_whole_seconds (p : platform) (s : sysinfo) (bt : Q) :
  get_system_info p = Ok s -> p_boot_time p = Ok bt -> (bt <= p_clock p)%Q ->
  0 <= uptime_seconds s /\
  (inject_Z (uptime_seconds s) <= p_clock p - bt)%Q /\
  (p_clock p - bt < inject_Z (uptime_seconds s) + 1)%Q.
Proof.
  intros Hs Hbt Hle. unfold get_system_info in Hs. rewrite Hbt in Hs.
  apply bind_Ok in Hs as [h [_ Hs]]. apply bind_Ok in Hs as [sy [_ Hs]].
  simpl in Hs. inversion Hs; subst. simpl.
  apply py_int_bounds. apply (Qplus_le_l _ _ bt).
  ring_simplify. exact Hle.
Qed.

Lemma uptime_whole_seconds_witness :
  get_system_info sample_platform =
    Ok {| hostname := "host"; platform_name := "Linux"; boot_time := 1000 # 1;
          uptime_seconds := 4000 |} /\
  (inject_Z 4000 <= p_clock sample_platform - (1000 # 1))%Q.
Proof.
  assert (H : get_system_info sample_platform =
    Ok {| hostname := "host"; platform_name := "Linux"; boot_time := 1000 # 1;
          uptime_seconds := 4000 |}) by reflexivity.
  split; [exact H|].
  destruct (uptime_whole_seconds sample_platform _ (1000 # 1) H eq_refl
              ltac:(vm_compute; discriminate)) as [_ [Hle _]].
  exact Hle.
Defined.

(** ** Enumerating processes *)

(** X3: when every item is read or raises [NoSuchProcess] or
    [AccessDenied], the population is the items that were read, in
    enumeration order. *)
Theorem collect_procs_skips (items : list (result procinfo)) :
  Forall (fun r => skippable r = true) items ->
  collect_procs items = Ok (ok_items items).
Proof.
  induction items as [|r rest IH]; intros Hf; simpl; [reflexivity|].
  apply Forall_cons in Hf as [Hr Hrest].
  destruct r as [info|[]]; simpl in Hr; try discriminate;
    rewrite (IH Hrest); reflexivity.
Qed.

Lemma collect_procs_skips_witness :
  Forall (fun r => skippable r = true) sample_procs /\
  collect_procs sample_procs = Ok (ok_items sample_procs).
Proof.
  assert (H : Forall (fun r => skippable r = true) sample_procs)
    by (repeat constructor).
  split; [exact H | exact (collect_procs_skips sample_procs H)].
Defined.

Lemma collect_procs_stops (pre post : list (result procinfo)) (e : exn) :
  Forall (fun r => skippable r = true) pre ->
  skippable (Err e) = false ->
  collect_procs (pre ++ Err e :: post) = Err e.
Proof.
  intros Hpre He. induction pre as [|r rest IH]; simpl.
  - destruct e; simpl in He; try discriminate; reflexivity.
  - apply Forall_cons in Hpre as [Hr Hrest].
    destruct r as [info|[]]; simpl in Hr; try discriminate;
      rewrite (IH Hrest); reflexivity.
Qed.

(** X4: when reading a process raises an exception other than
    [NoSuchProcess] and [AccessDenied], after processes that were read or
    skipped, [get_top_processes] raises that exception, whatever follows. *)
Theorem top_processes_other_error (p : platform) (pre post : list (result procinfo))
    (e : exn) (top_n : Z) :
  p_process_iter p = Ok (pre ++ Err e :: post) ->
  Forall (fun r => skippable r = true) pre ->
  skippable (Err e) = false ->
  get_top_processes p top_n = Err e.
Proof.
  intros Hit Hpre He. unfold get_top_processes. rewrite Hit. simpl.
  rewrite (collect_procs_stops pre post e Hpre He). reflexivity.
Qed.

Lemma top_processes_other_error_witness :
  get_top_processes (with_procs sample_platform (sample_procs ++ Err OSError :: sample_procs)) 5
  = Err OSError.
Proof.
  apply (top_processes_other_error _ sample_procs sample_procs OSError 5);
    [reflexivity | repeat constructor | reflexivity].
Defined.

(** ** What the top lists leave out *)

Section KeyOrder.
Variable key : procinfo -> Q.

Lemma insert_desc_key_sorted (x : procinfo) (l : list procinfo) :
  Sorted (fun a b => key b <= key a)%Q l ->
  Sorted (fun a b => key b <= key a)%Q (insert_desc key x l).
Proof.
  induction l as [|y t IH]; intros Hs; simpl; [repeat constructor|].
  destruct (Qle_bool (key y) (key x)) eqn:Hle.
  - apply Qle_bool_iff in Hle. constructor; [exact Hs|]. constructor. exact Hle.
  - assert (Hlt : (key x <= key y)%Q).
    { apply Qlt_le_weak, Qnot_le_lt. intros Hc. apply Qle_bool_iff in Hc. congruence. }
    inversion Hs as [|? ? Ht Hhd]; subst. constructor; [apply IH; exact Ht|].
    destruct t as [|z t]; simpl; [constructor; exact Hlt|].
    destruct (Qle_bool (key z) (key x)); constructor; [exact Hlt|].
    inversion Hhd. assumption.
Qed.

(** Sorted by decreasing key, with no assumption on the input order. *)
Lemma sorted_desc_key_sorted (l : list procinfo) :
  StronglySorted (fun a b => key b <= key a)%Q (sorted_desc key l).
Proof.
  apply Sorted_StronglySorted.
  - intros a b c Hab Hbc. eapply Qle_trans; eassumption.
  - induction l as [|x t IH]; simpl; [constructor|].
    apply insert_desc_key_sorted. exact IH.
Qed.
End KeyOrder.

Lemma strongly_sorted_app {A} (R : A -> A -> Prop) (l1 l2 : list A) :
  StronglySorted R (l1 ++ l2) -> forall a b, In a l1 -> In b l2 -> R a b.
Proof.
  induction l1 as [|x l1 IH]; simpl; intros Hs a b Ha Hb; [contradiction|].
  apply StronglySorted_inv in Hs as [Hs Hall].
  destruct Ha as [<-|Ha].
  - rewrite List.Forall_forall in Hall. apply Hall. apply in_or_app. right. exact Hb.
  - apply IH; assumption.
Qed.

(** X5: for [top_n >= 0], the processes a top list leaves out (counted
    with multiplicity) have a metric no larger than that of any process in
    the list: the list really holds the [top_n] largest. *)
Theorem top_list_is_top (key : procinfo -> Q) (processes : list procinfo) (top_n : Z) :
  0 <= top_n ->
  exists rest,
    Permutation (py_prefix (sorted_desc key processes) top_n ++ rest) processes /\
    (forall a b, In a (py_prefix (sorted_desc key processes) top_n) -> In b rest ->
       (key b <= key a)%Q).
Proof.
  intros Hk. rewrite py_prefix_nonneg by exact Hk.
  exists (skipn (Z.to_nat top_n) (sorted_desc key processes)). split.
  - rewrite firstn_skipn. apply sorted_desc_perm.
  - apply strongly_sorted_app. rewrite firstn_skipn. apply sorted_desc_key_sorted.
Qed.

Lemma top_list_is_top_witness :
  exists rest,
    Permutation (py_prefix (sorted_desc (metric cpu_percent) sample_population) 2 ++ rest)
      sample_population /\
    (forall a b, In a (py_prefix (sorted_desc (metric cpu_percent) sample_population) 2) ->
       In b rest -> (metric cpu_percent b <= metric cpu_percent a)%Q).
Proof. apply top_list_is_top. lia. Defined.

Lemma top_of_Ok (processes : list procinfo) (top_n : Z) (t : topprocs) :
  top_of processes top_n = Ok t ->
  top_cpu_processes t = py_prefix (sorted_desc (metric cpu_percent) processes) top_n /\
  top_memory_processes t = py_prefix (sorted_desc (metric memory_percent) processes) top_n.
Proof.
  unfold top_of, py_sorted_desc.
  destruct ((2 <=? length processes)%nat && existsb (key_missing cpu_percent) processes);
    cbn [mbind result_bind]; [discriminate|].
  destruct ((2 <=? length processes)%nat && existsb (key_missing memory_percent) processes);
    cbn [mbind result_bind]; [discriminate|].
  intros [= <-]. split; reflexivity.
Qed.

(** X6: a negative [top_n] is a Python slice bound counted from the end:
    each top list then holds all but the last [-top_n] processes of the
    sorted population (none when [-top_n] exceeds the population). *)
Theorem top_lists_negative_top_n (processes : list procinfo) (top_n : Z) (t : topprocs) :
  top_n < 0 ->
  top_of processes top_n = Ok t ->
  Z.of_nat (length (top_cpu_processes t)) =
    Z.max 0 (Z.of_nat (length processes) + top_n) /\
  Z.of_nat (length (top_memory_processes t)) =
    Z.max 0 (Z.of_nat (length processes) + top_n).
Proof.
  intros Hk Ht. apply top_of_Ok in Ht as [-> ->]. unfold py_prefix.
  destruct (Z.leb_spec 0 top_n); [lia|].
  rewrite !length_firstn, !(Permutation_length (sorted_desc_perm _ processes)).
  split; lia.
Qed.

Lemma top_lists_negative_top_n_witness :
  exists t, top_of sample_population (-1) = Ok t /\
  Z.of_nat (length (top_cpu_processes t)) = 3 /\
  Z.of_nat (length (top_memory_processes t)) = 3.
Proof.
  destruct (top_of sample_population (-1)) as [t|e] eqn:H.
  - exists t. split; [reflexivity|].
    exact (top_lists_negative_top_n sample_population (-1) t ltac:(lia) H).
  - vm_compute in H. discriminate.
Defined.

(** ** Disk edge behaviour *)

(** X7: an exception other than [PermissionError] from one mount's usage
    query makes [get_disk_info] raise it: the mounts read before it are
    lost with it. *)
Theorem disk_other_error_aborts (p : platform) (pre post : list partition)
    (part : partition) (e : exn) :
  p_disk_partitions p = Ok (pre ++ part :: post) ->
  only_permission_failures (p_disk_usage p) pre ->
  p_disk_usage p (mountpoint part) = Err e -> e <> PermissionError ->
  get_disk_info p = Err e.
Proof.
  intros Hparts Hpre Hpart He. unfold get_disk_info. rewrite Hparts. simpl.
  clear Hparts. generalize (∅ : gmap string disk_entry) as acc.
  induction pre as [|q rest IH]; intros acc; simpl.
  - rewrite Hpart. destruct e; congruence.
  - apply Forall_cons in Hpre as [[[u Hu]|Hu] Hrest]; rewrite Hu; apply IH; exact Hrest.
Qed.

Lemma disk_other_error_aborts_witness :
  get_disk_info (with_disks sample_platform sample_partitions srv_error_usage) = Err OSError.
Proof.
  apply (disk_other_error_aborts _
           [{| device := "/dev/sda1"; mountpoint := "/" |};
            {| device := "/dev/sdb1"; mountpoint := "/root/secret" |}] []
           {| device := "/dev/sda1"; mountpoint := "/srv" |} OSError).
  - reflexivity.
  - unfold only_permission_failures.
    repeat (constructor; [first [left; eexists; reflexivity | right; reflexivity]|]).
    constructor.
  - reflexivity.
  - discriminate.
Defined.

Lemma disk_entries_accessible (du : string -> result usage) (parts : list partition) :
  disk_entries du (accessible du parts) = disk_entries du parts.
Proof.
  induction parts as [|part rest IH]; simpl; [reflexivity|].
  destruct (du (mountpoint part)) eqn:Hu; simpl; [rewrite Hu|]; rewrite IH; reflexivity.
Qed.

Lemma accessible_only_ok (du : string -> result usage) (parts : list partition) :
  only_permission_failures du (accessible du parts).
Proof.
  unfold only_permission_failures.
  induction parts as [|part rest IH]; simpl; [constructor|].
  destruct (du (mountpoint part)) eqn:Hu; [|exact IH].
  constructor; [left; eauto | exact IH].
Qed.

(** X8: when usage queries raise nothing but [PermissionError], the disk
    result is the same as if the unreadable mounts were not mounted at
    all. *)
Theorem disk_ignores_denied_mounts (p : platform) (parts : list partition) :
  p_disk_partitions p = Ok parts ->
  only_permission_failures (p_disk_usage p) parts ->
  get_disk_info (with_disks p (accessible (p_disk_usage p) parts) (p_disk_usage p)) =
  get_disk_info p.
Proof.
  intros Hparts Hf. unfold get_disk_info. rewrite Hparts. simpl.
  rewrite (disk_loop_assigns _ _ _ Hf), disk_loop_assigns by apply accessible_only_ok.
  rewrite disk_entries_accessible. reflexivity.
Qed.

Lemma disk_ignores_denied_mounts_witness :
  get_disk_info (with_disks five_platform
                   (accessible five_usage five_partitions) five_usage) =
  get_disk_info five_platform.
Proof.
  apply (disk_ignores_denied_mounts five_platform five_partitions eq_refl).
  unfold only_permission_failures.
  repeat (constructor; [first [left; eexists; reflexivity | right; reflexivity]|]).
  constructor.
Defined.

(** ** The log file *)

Lemma string_app_assoc (a b c : string) : a +:+ (b +:+ c) = (a +:+ b) +:+ c.
Proof.
  induction a as [|x a IH]; [reflexivity|].
  change (String x (a +:+ (b +:+ c)) = String x ((a +:+ b) +:+ c)).
  rewrite IH. reflexivity.
Qed.

(** X9: logging two snapshots one after the other leaves the former
    content followed by the two records, in order. *)
Theorem log_twice_in_order (json_dumps : snapshot -> string)
    (fs : gmap string string) (log_file : string) (d1 d2 : snapshot) :
  log_monitoring_data json_dumps (log_monitoring_data json_dumps fs log_file d1) log_file d2
    !! log_file =
  Some (default "" (fs !! log_file) +:+ log_record json_dumps d1 +:+ log_record json_dumps d2).
Proof.
  unfold log_monitoring_data. rewrite !lookup_insert_eq. cbn [default].
  f_equal. symmetry. apply string_app_assoc.
Qed.

(** X11: [SystemMonitor()] keeps an existing log file's content and
    creates a missing one empty, and logging after it gives the same files
    as logging without it. *)
Theorem init_then_log (json_dumps : snapshot -> string)
    (fs : gmap string string) (data : snapshot) :
  init_monitor fs !! default_log_file = Some (default "" (fs !! default_log_file)) /\
  log_monitoring_data json_dumps (init_monitor fs) default_log_file data =
  log_monitoring_data json_dumps fs default_log_file data.
Proof.
  unfold init_monitor, ensure_log_file, log_monitoring_data.
  destruct (fs !! default_log_file) as [c|] eqn:Hf.
  - rewrite Hf. split; reflexivity.
  - split.
    + apply lookup_insert_eq.
    + rewrite lookup_insert_eq, insert_insert_eq. reflexivity.
Qed.

(** ** The loop without Ctrl+C *)

Lemma run_main_none_ok (plats : nat -> platform) (snaps : nat -> snapshot) (fuel : nat) :
  forall (k : nat) (st : mstate),
  (forall j, (k <= j < k + fuel)%nat -> monitor (plats j) = Ok (snaps j)) ->
  run_main fuel plats None k st =
  {| written := written st ++ map snaps (seq k fuel);
     printed := printed st ++ map snaps (seq k fuel); status_of := status_of st |}.
Proof.
  induction fuel as [|fuel IH]; intros k st Hok; cbn [run_main].
  - rewrite !app_nil_r. destruct st; reflexivity.
  - rewrite (run_pass_ok plats None k st (snaps k)).
    + rewrite IH by (intros j Hj; apply Hok; lia).
      simpl. rewrite <- !app_assoc. reflexivity.
    + reflexivity.
    + apply Hok. lia.
Qed.

Lemma run_main_none_err (plats : nat -> platform) (snaps : nat -> snapshot) (e : exn) :
  forall (m fuel k : nat) (st : mstate),
  (m < fuel)%nat ->
  (forall j, (k <= j < m + k)%nat -> monitor (plats j) = Ok (snaps j)) ->
  monitor (plats (m + k)%nat) = Err e ->
  run_main fuel plats None k st =
  {| written := written st ++ map snaps (seq k m);
     printed := printed st ++ map snaps (seq k m); status_of := Crashed e |}.
Proof.
  induction m as [|m IH]; intros fuel k st Hf Hok Herr;
    (destruct fuel as [|fuel]; [lia|]); cbn [run_main].
  - simpl Nat.add in Herr. unfold run_pass. cbn [fault_at]. rewrite Herr.
    simpl. rewrite !app_nil_r. reflexivity.
  - rewrite (run_pass_ok plats None k st (snaps k)).
    + rewrite (IH fuel (S k)).
      * simpl. rewrite <- !app_assoc. reflexivity.
      * lia.
      * intros j Hj. apply Hok. lia.
      * replace (m + S k)%nat with (S m + k)%nat by lia. exact Herr.
    + reflexivity.
    + apply Hok. lia.
Qed.

(** X12: without Ctrl+C, while [monitor()] returns and nothing else
    raises, the loop does not stop: after [n] passes every snapshot has
    been logged and printed once, in order, and it is still running. *)
Theorem main_runs_until_interrupted (plats : nat -> platform) (snaps : nat -> snapshot)
    (n : nat) :
  (forall j, (j < n)%nat -> monitor (plats j) = Ok (snaps j)) ->
  run_main n plats None 0 init_state =
  {| written := map snaps (seq 0 n); printed := map snaps (seq 0 n); status_of := Running |}.
Proof.
  intros Hok. rewrite (run_main_none_ok plats snaps n 0 init_state).
  - reflexivity.
  - intros j Hj. apply Hok. lia.
Qed.

Lemma main_runs_until_interrupted_witness :
  run_main 2 (fun _ => sample_platform) None 0 init_state =
  {| written := [sample_snapshot; sample_snapshot];
     printed := [sample_snapshot; sample_snapshot]; status_of := Running |}.
Proof.
  assert (Hm : monitor sample_platform = Ok sample_snapshot) by (vm_compute; reflexivity).
  exact (main_runs_until_interrupted (fun _ => sample_platform) (fun _ => sample_snapshot) 2
           (fun j _ => Hm)).
Defined.

(** X17: an exception raised by [monitor()] is not caught by [main]: it
    ends the loop in the pass it occurs, after the earlier passes were
    logged and printed, and leaves [main]. *)
Theorem monitor_error_ends_main (plats : nat -> platform) (snaps : nat -> snapshot)
    (n i : nat) (e : exn) :
  (i < n)%nat ->
  (forall j, (j < i)%nat -> monitor (plats j) = Ok (snaps j)) ->
  monitor (plats i) = Err e ->
  run_main n plats None 0 init_state =
  {| written := map snaps (seq 0 i); printed := map snaps (seq 0 i);
     status_of := Crashed e |}.
Proof.
  intros Hi Hok Herr. rewrite (run_main_none_err plats snaps e i n 0 init_state).
  - reflexivity.
  - exact Hi.
  - intros j Hj. apply Hok. lia.
  - rewrite Nat.add_0_r. exact Herr.
Qed.

Lemma monitor_error_ends_main_witness :
  run_main 3 cpu_fails_in_pass_1 None 0 init_state =
  {| written := [sample_snapshot]; printed := [sample_snapshot]; status_of := Crashed OSError |}.
Proof.
  assert (Hm : monitor sample_platform = Ok sample_snapshot) by (vm_compute; reflexivity).
  refine (monitor_error_ends_main cpu_fails_in_pass_1 (fun _ => sample_snapshot) 3 1 OSError
            ltac:(lia) _ _).
  - intros j Hj. destruct j as [|j]; [exact Hm | lia].
  - vm_compute. reflexivity.
Defined.

(** ** Drift of the tick start times *)

(** X13: the passes start at the first start time plus the processing
    times so far plus 5 s per pass: one start per pass and one more, the
    last [sum ds + 5000 * length ds] ms after the first. *)
Theorem tick_starts_drift (ds : list Z) :
  forall (start : Z),
  length (tick_starts start ds) = S (length ds) /\
  nth_error (tick_starts start ds) (length ds) =
    Some (start + sum_Z ds + sleep_ms * Z.of_nat (length ds)).
Proof.
  induction ds as [|d ds IH]; intros start; simpl.
  - split; [reflexivity|]. f_equal. lia.
  - destruct (IH (start + d + sleep_ms)) as [Hl Hn].
    destruct ds as [|d' ds'] eqn:E; simpl in *.
    + split; [reflexivity|]. f_equal. lia.
    + split; [rewrite Hl; reflexivity|]. rewrite Hn. f_equal. lia.
Qed.

(** ** What [monitor] assembles *)

Lemma monitor_Ok_parts (p : platform) (s : snapshot) :
  monitor p = Ok s ->
  exists sy c m d n t,
    get_system_info p = Ok sy /\ get_cpu_info p = Ok c /\
    get_memory_info p = Ok m /\ get_disk_info p = Ok d /\
    get_network_info p = Ok n /\ get_top_processes p 5 = Ok t /\
    s = [("timestamp", DTimestamp (p_clock p)); ("system", DSystem sy);
         ("cpu", DCpu c); ("memory", DMemory m); ("disk", DDisk d);
         ("network", DNetwork n); ("processes", DProcesses t)].
Proof.
  unfold monitor. intros H. simpl in H.
  destruct (get_system_info p) as [sy|] eqn:?; simpl in H; [|discriminate].
  destruct (get_cpu_info p) as [c|] eqn:?; simpl in H; [|discriminate].
  destruct (get_memory_info p) as [m|] eqn:?; simpl in H; [|discriminate].
  destruct (get_disk_info p) as [d|] eqn:?; simpl in H; [|discriminate].
  destruct (get_network_info p) as [n|] eqn:?; simpl in H; [|discriminate].
  destruct (get_top_processes p 5) as [t|] eqn:?; simpl in H; [|discriminate].
  injection H as <-. exists sy, c, m, d, n, t. repeat split; assumption.
Qed.

(** X15: in every snapshot, each of the two process lists holds
    [min(5, population)] processes, the population being the processes
    whose info was read. *)
Theorem snapshot_top_lists_length (p : platform) (s : snapshot) :
  monitor p = Ok s ->
  exists t items processes,
    In ("processes", DProcesses t) s /\
    p_process_iter p = Ok items /\ collect_procs items = Ok processes /\
    length (top_cpu_processes t) = Nat.min 5 (length processes) /\
    length (top_memory_processes t) = Nat.min 5 (length processes).
Proof.
  intros H. destruct (monitor_Ok_parts p s H)
    as (sy & c & m & d & n & t & _ & _ & _ & _ & _ & Ht & ->).
  unfold get_top_processes in Ht.
  destruct (p_process_iter p) as [items|] eqn:Hit; simpl in Ht; [|discriminate].
  destruct (collect_procs items) as [ps|] eqn:Hc; simpl in Ht; [|discriminate].
  exists t, items, ps.
  split; [simpl; tauto|]. split; [reflexivity|]. split; [exact Hc|].
  apply top_of_Ok in Ht as [-> ->]. rewrite !py_prefix_nonneg by lia.
  rewrite !length_firstn, !(Permutation_length (sorted_desc_perm _ ps)).
  split; reflexivity.
Qed.

Lemma snapshot_top_lists_length_witness :
  exists s, monitor sample_platform = Ok s /\
  exists t items processes,
    In ("processes", DProcesses t) s /\
    p_process_iter sample_platform = Ok items /\ collect_procs items = Ok processes /\
    length (top_cpu_processes t) = Nat.min 5 (length processes) /\
    length (top_memory_processes t) = Nat.min 5 (length processes).
Proof.
  destruct (monitor sample_platform) as [s|e] eqn:H.
  - exists s. split; [reflexivity|].
    exact (snapshot_top_lists_length sample_platform s H).
  - vm_compute in H. discriminate.
Defined.
